(** * sk_dsp_comm.synchronization: a shallow embedding

    The module under study is [src/sk_dsp_comm/synchronization.py]:
    tracking loops (NCO, loop filters, discriminator, PLL/AFC composites),
    the batch synchronizers [NDA_symb_sync] and [DD_carrier_sync], and the
    analog-equivalent PLL simulators [PLL1] and [PLL_cbb].

    Conventions of the embedding.
    - A Python/NumPy float is a rational ([Q]); [+ - * /] are exact, the
      rounding of IEEE doubles is not modelled.  [np.pi] is the double
      itself, which is a rational number.
    - A run that would leave the finite floats (inf, nan) is reported as
      [NonFinite]; Python would carry on with inf/nan, the model stops.
    - A raised Python exception is [Raise e].
    - The transcendental NumPy kernels ([np.exp], [np.angle], [np.sqrt],
      [np.sin]) are not part of the repository; they are taken as
      parameters through the class [NumPy]. *)

From Stdlib Require Import String.
From Stdlib Require Import ZArith QArith Qround Qabs Qminmax List Bool Lia Lqa.
Import ListNotations.

Set Implicit Arguments.

(** ** Python outcomes *)

Inductive exn : Type :=
| ZeroDivisionError
| TypeError
| NotImplementedError
| UnboundLocalError
| ValueError
| IndexError.

Inductive result (A : Type) : Type :=
| Ok (a : A)
| Raise (e : exn)
| NonFinite.

Arguments Ok {A} a.
Arguments Raise {A} e.
Arguments NonFinite {A}.

Definition bind {A B : Type} (m : result A) (k : A -> result B) : result B :=
  match m with
  | Ok a => k a
  | Raise e => Raise e
  | NonFinite => NonFinite
  end.

Notation "x <- m ;; k" := (bind m (fun x => k))
  (at level 61, m at next level, right associativity).
Notation "' p <- m ;; k" := (bind m (fun x => match x with p => k end))
  (at level 61, p pattern, m at next level, right associativity).

Definition is_Ok {A : Type} (m : result A) : bool :=
  match m with Ok _ => true | _ => false end.

(** ** Numbers *)

Open Scope Q_scope.

(** A Python number is an [int] or a [float]; the distinction decides which
    operators apply ([>>] and [^] are defined on [int] only). *)
Inductive pynum : Type :=
| PInt (z : Z)
| PFloat (q : Q).

Definition to_float (x : pynum) : Q :=
  match x with PInt z => inject_Z z | PFloat q => q end.

(** [x * y]: int*int stays an int, anything else is a float. *)
Definition py_mul (x y : pynum) : pynum :=
  match x, y with
  | PInt a, PInt b => PInt (a * b)
  | _, _ => PFloat (to_float x * to_float y)
  end.

(** [x ^ y]: bitwise exclusive or; a float operand is a [TypeError]. *)
Definition py_xor (x y : pynum) : result pynum :=
  match x, y with
  | PInt a, PInt b => Ok (PInt (Z.lxor a b))
  | _, _ => Raise TypeError
  end.

(** [x >> k] for a literal [k >= 0]. *)
Definition py_rshift (x : pynum) (k : Z) : result Z :=
  match x with
  | PInt a => Ok (Z.shiftr a k)
  | PFloat _ => Raise TypeError
  end.

(** [2 ** n]: an int for [n >= 0], the float [2^n] otherwise. *)
Definition py_pow2 (n : Z) : pynum :=
  if (0 <=? n)%Z then PInt (2 ^ n) else PFloat (2 ^ n).

(** [a / b] on Python floats. *)
Definition py_div (a b : Q) : result Q :=
  if Qeq_bool b 0 then Raise ZeroDivisionError else Ok (a / b).

(** [a / b] where an operand is a NumPy scalar or array element. *)
Definition np_div (a b : Q) : result Q :=
  if Qeq_bool b 0 then NonFinite else Ok (a / b).

(** [np.pi], the double nearest to pi. *)
Definition np_pi : Q := 884279719003555 # 281474976710656.

(** [np.rint]: nearest integer, ties to the even one. *)
Definition rint (q : Q) : Z :=
  let f := Qfloor q in
  match Qcompare (q - inject_Z f) (1 # 2) with
  | Lt => f
  | Gt => (f + 1)%Z
  | Eq => if Z.even f then f else (f + 1)%Z
  end.

Definition np_rint (q : Q) : Q := inject_Z (rint q).

(** C conversion of a float to an integer: the fraction is discarded. *)
Definition Qtrunc (q : Q) : Z :=
  if Qle_bool 0 q then Qfloor q else Qceiling q.


(** [np.sign] *)
Definition np_sign (q : Q) : Q :=
  match Qcompare q 0 with Lt => -(1) | Eq => 0 | Gt => 1 end.

(** The unsigned NumPy scalar types the oscillator uses. *)
Inductive np_dtype : Type := uint8 | uint16 | uint32 | uint64.

Definition dtype_bits (d : np_dtype) : Z :=
  match d with uint8 => 8 | uint16 => 16 | uint32 => 32 | uint64 => 64 end%Z.

(** [dtype(k)] on an integer: reduced to the width of the type. *)
Definition dtype_of_int (d : np_dtype) (k : Z) : Z := (k mod 2 ^ dtype_bits d)%Z.

(** [dtype(x)] on a float: truncated, then reduced to the width. *)
Definition dtype_of_float (d : np_dtype) (x : Q) : Z := dtype_of_int d (Qtrunc x).

(** ** class NCO *)

Record NCO : Type := mkNCO {
  n_bits : Z;
  dtype : np_dtype;
  max_bits_const : pynum;
  fcenter_hat : Q;
  fs : Q;
  delta_k : Z;
  kc : Q;
  k_hat : Z;
  k_old : Z
}.

Definition NCO_select_dtype (nbits : Z) : result np_dtype :=
  if (nbits <=? 8)%Z then Ok uint8
  else if (nbits <=? 16)%Z then Ok uint16
  else if (nbits <=? 32)%Z then Ok uint32
  else if (nbits <=? 64)%Z then Ok uint64
  else Raise NotImplementedError.

(** [NCO.__init__(fcenter, fs, kc, state_init_k, n_bits)].  The frequency
    word is [dtype(np.rint(fcenter * max_bits_const) / fs)]: the product is
    rounded, then divided, and the conversion discards the fraction. *)
Definition NCO_init (fcenter fs0 kc0 : Q) (state_init_k : Z) (nbits : Z) : result NCO :=
  d <- NCO_select_dtype nbits ;;
  let mbc := py_pow2 nbits in
  w <- np_div (np_rint (fcenter * to_float mbc)) fs0 ;;
  Ok {| n_bits := nbits;
        dtype := d;
        max_bits_const := mbc;
        fcenter_hat := fcenter;
        fs := fs0;
        delta_k := dtype_of_float d w;
        kc := kc0;
        k_hat := dtype_of_int d state_init_k;
        k_old := dtype_of_int d 0 |}.

(** The float handed to [np.rint] by [NCO.update]. *)
Definition NCO_update_arg (o : NCO) (e_in : Q) : Q :=
  inject_Z (k_hat o) + inject_Z (delta_k o) + kc o * to_float (max_bits_const o) * e_in.

(** [NCO.update(e_in)] *)
Definition NCO_update (o : NCO) (e_in : Q) : NCO :=
  {| n_bits := n_bits o;
     dtype := dtype o;
     max_bits_const := max_bits_const o;
     fcenter_hat := fcenter_hat o;
     fs := fs o;
     delta_k := delta_k o;
     kc := kc o;
     k_hat := dtype_of_float (dtype o) (np_rint (NCO_update_arg o e_in));
     k_old := k_hat o |}.

(** [NCO.out_square()] *)
Definition NCO_out_square (o : NCO) : result Q :=
  h <- py_rshift (max_bits_const o) 1 ;;
  if ((0 <=? k_hat o)%Z && (k_hat o <? dtype_of_int (dtype o) h)%Z)%bool
  then Ok 1 else Ok (-(1)).

(** Truth value of the optional argument [thresh]: [None] and zero are
    false. *)
Definition py_truthy (t : option Q) : bool :=
  match t with
  | None => false
  | Some q => negb (Qeq_bool q 0)
  end.

(** [NCO.pos_edge(thresh=None)]:
    [thresh = thresh if thresh else self.dtype(self.max_bits_const >> 1)]. *)
Definition NCO_pos_edge (o : NCO) (thresh : option Q) : result bool :=
  t <- (if py_truthy thresh
        then Ok (match thresh with Some q => q | None => 0 end)
        else (h <- py_rshift (max_bits_const o) 1 ;;
              Ok (inject_Z (dtype_of_int (dtype o) h)))) ;;
  let delta_theta := inject_Z (k_old o) - inject_Z (k_hat o) in
  if Qlt_le_dec t delta_theta then Ok true else Ok false.

(** [NCO.set_fcenter(fcenter_new)] *)
Definition NCO_set_fcenter (o : NCO) (fcenter_new : Q) : result NCO :=
  w <- py_div (fcenter_new * to_float (max_bits_const o)) (fs o) ;;
  let dk := dtype_of_float (dtype o) (np_rint w) in
  Ok {| n_bits := n_bits o;
        dtype := dtype o;
        max_bits_const := max_bits_const o;
        fcenter_hat := inject_Z dk / to_float (max_bits_const o) * fs o;
        fs := fs o;
        delta_k := dk;
        kc := kc o;
        k_hat := k_hat o;
        k_old := k_old o |}.


(** ** Complex numbers *)

Record C : Type := mkC { re : Q; im : Q }.

Definition C0 : C := mkC 0 0.
Definition Cadd (a b : C) : C := mkC (re a + re b) (im a + im b).
Definition Csub (a b : C) : C := mkC (re a - re b) (im a - im b).
Definition Cmul (a b : C) : C :=
  mkC (re a * re b - im a * im b) (re a * im b + im a * re b).
Definition Cconj (a : C) : C := mkC (re a) (- im a).
Definition Cscale (k : Q) (a : C) : C := mkC (k * re a) (k * im a).
Definition Cnorm2 (a : C) : Q := re a * re a + im a * im a.
Definition Csum (l : list C) : C := fold_left Cadd l C0.
Definition Qsum (l : list Q) : Q := fold_left Qplus l 0.


(** ** The NumPy kernels taken as parameters *)

Class NumPy : Type := {
  np_exp : Q -> Q;        (* np.exp(t), t real *)
  np_cis : Q -> C;        (* np.exp(1j*t), t real *)
  np_angle : C -> Q;      (* np.angle(z) *)
  np_sqrt : Q -> Q;       (* np.sqrt(t), t >= 0 *)
  np_sin : Q -> Q         (* np.sin(t) *)
}.

(** [abs(z)] and [np.abs(z)] on a complex scalar. *)
Definition np_abs `{NumPy} (a : C) : Q := np_sqrt (Cnorm2 a).

(** [np.std(l)] on a complex array; [nan] on an empty one. *)
Definition np_std `{NumPy} (l : list C) : result Q :=
  match l with
  | [] => NonFinite
  | _ :: _ =>
      let n := inject_Z (Z.of_nat (length l)) in
      let m := Cscale (/ n) (Csum l) in
      let dev := map (fun a => let d := np_abs (Csub a m) in d * d) l in
      Ok (np_sqrt (Qsum dev / n))
  end.

(** [NCO.out_exp()]: [np.exp(1j * 2 * np.pi * k_hat / max_bits_const)] *)
Definition NCO_out_exp `{NumPy} (o : NCO) : C :=
  np_cis (2 * np_pi * inject_Z (k_hat o) / to_float (max_bits_const o)).

(** [NCO.out_sin()] *)
Definition NCO_out_sin `{NumPy} (o : NCO) : Q :=
  np_sin (2 * np_pi * inject_Z (k_hat o) / to_float (max_bits_const o)).

(** ** class Accumulator, LoopFilter1, LoopFilter2 *)

Record Accumulator : Type := mkAccumulator { m_state : Q }.

Definition Accumulator_update (a : Accumulator) (x_in : Q) : Accumulator :=
  {| m_state := m_state a + x_in |}.

Definition Accumulator_out (a : Accumulator) : Q := m_state a.

Record LoopFilter1 : Type := mkLoopFilter1 { lf1_accum : Accumulator; lf1_alpha2 : Q }.

Definition LoopFilter1_init (a2 : Q) (state : Q) : LoopFilter1 :=
  {| lf1_accum := mkAccumulator state; lf1_alpha2 := a2 |}.

(** [LoopFilter1.filter(x)]: the filter after the call and its output. *)
Definition LoopFilter1_filter (f : LoopFilter1) (x : Q) : LoopFilter1 * Q :=
  let acc := Accumulator_update (lf1_accum f) x in
  ({| lf1_accum := acc; lf1_alpha2 := lf1_alpha2 f |},
   lf1_alpha2 f * Accumulator_out acc).

Record LoopFilter2 : Type :=
  mkLoopFilter2 { accum : Accumulator; alpha1 : Q; alpha2 : Q }.

Definition LoopFilter2_init (a1 a2 : Q) (state : Q) : LoopFilter2 :=
  {| accum := mkAccumulator state; alpha1 := a1; alpha2 := a2 |}.

(** [LoopFilter2.filter(x)]: the filter after the call and its output. *)
Definition LoopFilter2_filter (f : LoopFilter2) (x : Q) : LoopFilter2 * Q :=
  let acc := Accumulator_update (accum f) x in
  ({| accum := acc; alpha1 := alpha1 f; alpha2 := alpha2 f |},
   alpha1 f * x + alpha2 f * Accumulator_out acc).

(** Successive calls of [filter] on one filter object: the outputs in call
    order and the filter left behind. *)
Fixpoint LoopFilter2_run (f : LoopFilter2) (xs : list Q) : LoopFilter2 * list Q :=
  match xs with
  | [] => (f, [])
  | x :: xs' =>
      let (f1, y) := LoopFilter2_filter f x in
      let (f2, ys) := LoopFilter2_run f1 xs' in
      (f2, y :: ys)
  end.

(** [loop_parms1(Bn, kd, fs, bn_mode)] *)
Definition loop_parms1 `{NumPy} (Bn kd fs0 : Q) (bn_mode : bool) : result Q :=
  k2 <- (if bn_mode
         then (r <- py_div (-(4) * Bn) fs0 ;; Ok (1 - np_exp r))
         else (r <- py_div (-(2) * np_pi * Bn) fs0 ;; Ok (1 - np_exp r))) ;;
  np_div k2 (1 * kd).

(** [loop_parms2(bn, zeta, kd, fs)] *)
Definition loop_parms2 (bn zeta kd fs0 : Q) : result (Q * Q) :=
  i <- py_div 1 (4 * zeta) ;;
  w <- py_div 1 (zeta + i) ;;
  let wn := 2 * bn * w in
  a <- py_div (2 * zeta * wn) fs0 ;;
  r <- py_div wn fs0 ;;
  let k1 := a + (1 # 2) * (r * r) in
  let k2 := r * r in
  g1 <- py_div k1 (1 * kd) ;;
  g2 <- py_div k2 (1 * kd) ;;
  Ok (g1, g2).

(** ** class Discriminator *)

Record Discriminator : Type := mkDiscriminator { f_clk : Q; d_state : C }.

(** [Discriminator.update(x_in, f_clk_units)]: the discriminator after the
    call and its output. *)
Definition Discriminator_update `{NumPy} (d : Discriminator) (x_in : C)
    (f_clk_units : bool) : result (Discriminator * Q) :=
  let der_x_in := Csub x_in (d_state d) in
  let a := np_abs x_in in
  disdata <- np_div (re x_in * im der_x_in - im x_in * re der_x_in) (a * a) ;;
  let d' := {| f_clk := f_clk d; d_state := x_in |} in
  if f_clk_units
  then Ok (d', disdata * (f_clk d / (2 * np_pi)))
  else Ok (d', disdata / (2 * np_pi)).

(** ** Pre-built loops: cbb_pll and cbb_afc *)

(** The [for k in range(N_pll)] loop of [cbb_pll].  The output arrays are
    filled at index [k] in increasing order, once each; they are returned
    as the lists of the values written. *)
Fixpoint cbb_pll_loop `{NumPy} (k_d : Q) (pll_open : bool) (x_in_pll : list C)
    (PLL_NCO : NCO) (pll_lf : LoopFilter2) (y_lf_pll_old : Q)
    : list Q * list Q * list C :=
  match x_in_pll with
  | [] => ([], [], [])
  | x :: rest =>
      let PLL_NCO1 := NCO_update PLL_NCO (if pll_open then 0 else y_lf_pll_old) in
      let x_NCO := NCO_out_exp PLL_NCO1 in
      let y_d := im (Cmul x (Cconj x_NCO)) in
      let (pll_lf1, y_lf) := LoopFilter2_filter pll_lf (k_d * y_d) in
      let '(y_d_pll, y_lf_pll, x_NCO_pll) :=
        cbb_pll_loop k_d pll_open rest PLL_NCO1 pll_lf1 y_lf in
      (y_d :: y_d_pll, y_lf :: y_lf_pll, x_NCO :: x_NCO_pll)
  end.

(** [cbb_pll(x_in_pll, bn_pll, k_d, fc_pll, f_clk_pll, pll_open)] returns
    [(y_d_pll, y_lf_pll, x_NCO_pll)]. *)
Definition cbb_pll `{NumPy} (x_in_pll : list C) (bn_pll k_d fc_pll f_clk_pll : Q)
    (pll_open : bool) : result (list Q * list Q * list C) :=
  PLL_NCO <- NCO_init fc_pll f_clk_pll 1 0 32 ;;
  ' (alpha1_pll, alpha2_pll) <- loop_parms2 bn_pll (707 # 1000) (2 * np_pi) f_clk_pll ;;
  Ok (cbb_pll_loop k_d pll_open x_in_pll PLL_NCO
        (LoopFilter2_init alpha1_pll alpha2_pll 0) 0).

(** What the clock event loop of [cbb_afc] fills in: the three returned
    arrays and the local array [x_NCO_afc]. *)
Record afc_arrays : Type := mkAfc {
  y_d_afc : list Q;
  y_lf_afc : list Q;
  x_out_afc : list C;
  x_NCO_afc : list C
}.

Fixpoint cbb_afc_loop `{NumPy} (f_clk_afc : Q) (afc_open : bool) (x_in_afc : list C)
    (AFC_NCO : NCO) (discrim_afc : Discriminator) (afc_lf : LoopFilter1)
    (y_lf_afc_old : Q) : result afc_arrays :=
  match x_in_afc with
  | [] => Ok (mkAfc [] [] [] [])
  | x :: rest =>
      e <- (if afc_open then Ok 0 else np_div y_lf_afc_old f_clk_afc) ;;
      let AFC_NCO1 := NCO_update AFC_NCO e in
      let x_NCO := NCO_out_exp AFC_NCO1 in
      let x_out := Cmul x (Cconj x_NCO) in
      ' (discrim1, y_d) <- Discriminator_update discrim_afc x_out true ;;
      let (afc_lf1, y_lf) := LoopFilter1_filter afc_lf y_d in
      r <- cbb_afc_loop f_clk_afc afc_open rest AFC_NCO1 discrim1 afc_lf1 y_lf ;;
      Ok (mkAfc (y_d :: y_d_afc r) (y_lf :: y_lf_afc r)
                (x_out :: x_out_afc r) (x_NCO :: x_NCO_afc r))
  end.

(** The body of [cbb_afc] up to its [return]. *)
Definition cbb_afc_run `{NumPy} (x_in_afc : list C) (bn_afc k_d fc_afc f_clk_afc : Q)
    (afc_open : bool) : result afc_arrays :=
  AFC_NCO <- NCO_init fc_afc f_clk_afc 1 0 32 ;;
  let discrim_afc := mkDiscriminator f_clk_afc C0 in
  alpha2_afc <- loop_parms1 bn_afc 1 f_clk_afc true ;;
  cbb_afc_loop f_clk_afc afc_open x_in_afc AFC_NCO discrim_afc
    (LoopFilter1_init alpha2_afc 0) 0.

(** [cbb_afc(x_in_afc, bn_afc, k_d, fc_afc, f_clk_afc, afc_open)] returns
    [(y_d_afc, y_lf_afc, x_out_afc)]. *)
Definition cbb_afc `{NumPy} (x_in_afc : list C) (bn_afc k_d fc_afc f_clk_afc : Q)
    (afc_open : bool) : result (list Q * list Q * list C) :=
  r <- cbb_afc_run x_in_afc bn_afc k_d fc_afc f_clk_afc afc_open ;;
  Ok (y_d_afc r, y_lf_afc r, x_out_afc r).

(** The oscillator left alone: [n] calls of [update(0.0)], with the
    [out_exp()] read after each. *)
Fixpoint NCO_free_run `{NumPy} (n : nat) (o : NCO) : list C :=
  match n with
  | O => []
  | S n' => let o1 := NCO_update o 0 in NCO_out_exp o1 :: NCO_free_run n' o1
  end.

(** ** DD_carrier_sync *)

(** The loop constants shared by the two batch synchronizers:
    [K1 = 4*zeta/(zeta + 1/(4*zeta))*BnTs/Ns/Kp/K0] and
    [K2 = 4/(zeta + 1/(4*zeta))**2*(BnTs/Ns)**2/Kp/K0]. *)
Definition loop_gains (zeta BnTs : Q) (Ns : Z) (Kp K0 : Q) : result (Q * Q) :=
  i <- py_div 1 (4 * zeta) ;;
  a <- py_div (4 * zeta) (zeta + i) ;;
  b <- py_div (a * BnTs) (inject_Z Ns) ;;
  K1 <- py_div (b / Kp) K0 ;;
  c <- py_div 4 ((zeta + i) * (zeta + i)) ;;
  r <- py_div BnTs (inject_Z Ns) ;;
  K2 <- py_div (c * (r * r) / Kp) K0 ;;
  Ok (K1, K2).














(** ** PLL1 and PLL_cbb *)

(** The locals [K], [tau1], [tau2] after the [if loop_type == ...] chain.
    A branch binds only the names it assigns; [None] is a name still
    unbound.  The last branch only calls [warnings.warn]. *)
Record pll_consts : Type := mkPllConsts {
  pll_K : option Q;
  pll_tau1 : option Q;
  pll_tau2 : option Q;
  pll_warned : list string
}.

(** Reading a local name. *)
Definition py_local (v : option Q) : result Q :=
  match v with Some q => Ok q | None => Raise UnboundLocalError end.

(** [tau2 = 2*zeta/(2*np.pi*fn)*(1 - 2*np.pi*fn/K*1/(2*zeta))] *)
Definition PLL_tau2_lowpass (K fn zeta : Q) : result Q :=
  a <- py_div (2 * zeta) (2 * np_pi * fn) ;;
  b <- py_div (2 * np_pi * fn) K ;;
  c <- py_div (b * 1) (2 * zeta) ;;
  Ok (a * (1 - c)).

(** The parameter chain of [PLL1]; [Kv] is already in rad/s/v. *)
Definition PLL1_consts (loop_type : Z) (Kv fn zeta : Q) : result pll_consts :=
  if (loop_type =? 1)%Z then
    Ok (mkPllConsts (Some (2 * np_pi * fn)) None None [])
  else if (loop_type =? 2)%Z then
    t2 <- py_div zeta (np_pi * fn) ;;
    Ok (mkPllConsts (Some (4 * np_pi * zeta * fn)) None (Some t2) [])
  else if (loop_type =? 3)%Z then
    let K := Kv in
    t1 <- py_div K ((2 * np_pi * fn) * (2 * np_pi * fn)) ;;
    t2 <- PLL_tau2_lowpass K fn zeta ;;
    Ok (mkPllConsts (Some K) (Some t1) (Some t2) [])
  else
    Ok (mkPllConsts None None None ["Loop type must be 1, 2, or 3"%string]).

(** The parameter chain of [PLL_cbb].  It differs from [PLL1] in one place:
    the square in [tau1] is written [(2*np.pi*fn)^2], and [^] is the bitwise
    exclusive or. *)
Definition PLL_cbb_consts (loop_type : Z) (Kv : Q) (fn : pynum) (zeta : Q)
    : result pll_consts :=
  if (loop_type =? 1)%Z then
    Ok (mkPllConsts (Some (2 * np_pi * to_float fn)) None None [])
  else if (loop_type =? 2)%Z then
    t2 <- py_div zeta (np_pi * to_float fn) ;;
    Ok (mkPllConsts (Some (4 * np_pi * zeta * to_float fn)) None (Some t2) [])
  else if (loop_type =? 3)%Z then
    let K := Kv in
    d <- py_xor (py_mul (py_mul (PInt 2) (PFloat np_pi)) fn) (PInt 2) ;;
    t1 <- py_div K (to_float d) ;;
    t2 <- PLL_tau2_lowpass K (to_float fn) zeta ;;
    Ok (mkPllConsts (Some K) (Some t1) (Some t2) [])
  else
    Ok (mkPllConsts None None None ["Loop type must be 1, 2, or 3"%string]).

(** The registers of the trapezoidal integrators. *)
Record pll_regs : Type := mkPllRegs {
  filt_in_last : Q;
  filt_out_last : Q;
  vco_in_last : Q;
  vco_out : Q;
  vco_out_last : Q
}.

Definition pll_regs_init : pll_regs := mkPllRegs 0 0 0 0 0.

(** From [# Loop gain] to [vco_out = Kv*vco_out], the same text in both
    simulators: the registers after the pass and [vco_in]. *)
Definition PLL_filter_vco (loop_type : Z) (c : pll_consts) (T Kv : Q)
    (g : pll_regs) (pd_out : Q) : result (pll_regs * Q) :=
  K <- py_local (pll_K c) ;;
  r <- py_div K Kv ;;
  let gain_out := r * pd_out in
  ' (fil, fol, filt_out, u3) <-
    (if (loop_type =? 2)%Z then
       tau2 <- py_local (pll_tau2 c) ;;
       i2 <- py_div 1 tau2 ;;
       let filt_in := i2 * gain_out in
       let filt_out := filt_out_last g + T / 2 * (filt_in + filt_in_last g) in
       Ok (filt_in, filt_out, filt_out + gain_out, None)
     else if (loop_type =? 3)%Z then
       tau2 <- py_local (pll_tau2 c) ;;
       tau1 <- py_local (pll_tau1 c) ;;
       r21 <- py_div tau2 tau1 ;;
       i1 <- py_div 1 tau1 ;;
       let filt_in := r21 * gain_out - i1 * filt_out_last g in
       i2 <- py_div 1 tau2 ;;
       let u3 := filt_in + i2 * filt_out_last g in
       let filt_out := filt_out_last g + T / 2 * (filt_in + filt_in_last g) in
       Ok (filt_in, filt_out, filt_out, Some u3)
     else Ok (filt_in_last g, filt_out_last g, gain_out, None)) ;;
  vco_in <- (if (loop_type =? 3)%Z then py_local u3 else Ok filt_out) ;;
  let vco_out1 := vco_out_last g + T / 2 * (vco_in + vco_in_last g) in
  Ok ({| filt_in_last := fil;
         filt_out_last := fol;
         vco_in_last := vco_in;
         vco_out := Kv * vco_out1;
         vco_out_last := vco_out1 |}, vco_in).

(** The simulation loop of [PLL1]; returns [(theta_hat, ev, phi)]. *)
Fixpoint PLL1_loop `{NumPy} (loop_type : Z) (c : pll_consts) (T Kv : Q) (non_lin : Z)
    (g : pll_regs) (theta : list Q) : result (list Q * list Q * list Q) :=
  match theta with
  | [] => Ok ([], [], [])
  | theta_k :: rest =>
      let phi_k := theta_k - vco_out g in
      let pd_out := if (non_lin =? 1)%Z then np_sin phi_k else phi_k in
      ' (g1, vco_in) <- PLL_filter_vco loop_type c T Kv g pd_out ;;
      ' (theta_hat, ev, phi) <- PLL1_loop loop_type c T Kv non_lin g1 rest ;;
      Ok (vco_out g1 :: theta_hat, vco_in :: ev, phi_k :: phi)
  end.

(** [PLL1(theta, fs, loop_type, Kv, fn, zeta, non_lin)] *)
Definition PLL1 `{NumPy} (theta : list Q) (fs0 : Q) (loop_type : Z) (Kv fn zeta : Q)
    (non_lin : Z) : result (list Q * list Q * list Q) :=
  T <- py_div 1 fs0 ;;
  let Kv := 2 * np_pi * Kv in
  c <- PLL1_consts loop_type Kv fn zeta ;;
  PLL1_loop loop_type c T Kv non_lin pll_regs_init theta.

(** The simulation loop of [PLL_cbb]; [vco_out_cbb] is the complex
    oscillator output of the previous pass. *)
Fixpoint PLL_cbb_loop `{NumPy} (loop_type : Z) (c : pll_consts) (T Kv : Q)
    (g : pll_regs) (vco_out_cbb : C) (x : list C)
    : result (list Q * list Q * list Q) :=
  match x with
  | [] => Ok ([], [], [])
  | x_k :: rest =>
      let phi_k := im (Cmul x_k (Cconj vco_out_cbb)) in
      ' (g1, vco_in) <- PLL_filter_vco loop_type c T Kv g phi_k ;;
      ' (theta_hat, ev, phi) <-
        PLL_cbb_loop loop_type c T Kv g1 (np_cis (vco_out g1)) rest ;;
      Ok (vco_out g1 :: theta_hat, vco_in :: ev, phi_k :: phi)
  end.

(** [PLL_cbb(x, fs, loop_type, Kv, fn, zeta)] *)
Definition PLL_cbb `{NumPy} (x : list C) (fs0 : Q) (loop_type : Z) (Kv : Q)
    (fn : pynum) (zeta : Q) : result (list Q * list Q * list Q) :=
  T <- py_div 1 fs0 ;;
  let Kv := 2 * np_pi * Kv in
  c <- PLL_cbb_consts loop_type Kv fn zeta ;;
  PLL_cbb_loop loop_type c T Kv pll_regs_init C0 x.

(** ** NDA_symb_sync *)

(** [l[i]]: a negative index counts from the end. *)
Definition py_index {A : Type} (l : list A) (i : Z) : result A :=
  let len := Z.of_nat (length l) in
  let j := if (i <? 0)%Z then (i + len)%Z else i in
  if ((0 <=? j) && (j <? len))%Z%bool
  then match nth_error l (Z.to_nat j) with
       | Some a => Ok a
       | None => Raise IndexError
       end
  else Raise IndexError.

(** Slice bounds for a step of [-1], as Python adjusts them. *)
Definition py_adjust_rev (len i : Z) : Z :=
  if (i <? 0)%Z then (if (i + len <? 0)%Z then -1 else i + len)%Z
  else if (len <=? i)%Z then (len - 1)%Z
  else i.

(** [l[start:stop:-1]] *)
Definition py_slice_rev {A : Type} (d : A) (l : list A) (start stop : Z) : list A :=
  let len := Z.of_nat (length l) in
  let s := py_adjust_rev len start in
  let e := py_adjust_rev len stop in
  map (fun j => nth (Z.to_nat (s - Z.of_nat j)) l d) (seq 0 (Z.to_nat (s - e))).

(** [l[:stop]] *)
Definition py_prefix {A : Type} (l : list A) (stop : Z) : list A :=
  let len := Z.of_nat (length l) in
  let e := if (stop <? 0)%Z then Z.max 0 (stop + len) else Z.min stop len in
  firstn (Z.to_nat e) l.

(** [l[i] = v] for [i >= 0] *)
Fixpoint list_set {A : Type} (l : list A) (i : nat) (v : A) : list A :=
  match l, i with
  | [], _ => []
  | _ :: t, O => v :: t
  | h :: t, S i' => h :: list_set t i' v
  end.

Definition py_store {A : Type} (l : list A) (i : nat) (v : A) : result (list A) :=
  if (i <? length l)%nat then Ok (list_set l i v) else Raise IndexError.

(** [np.sum(w * c)] for a slice [w] and a list [c] of four coefficients:
    a slice of one element is broadcast, any other length but four is a
    shape mismatch. *)
Definition np_sum_times (w : list C) (c : list Q) : result C :=
  match w with
  | [a] => Ok (Csum (map (fun k => Cscale k a) c))
  | [_; _; _; _] => Ok (Csum (map (fun p => Cscale (snd p) (fst p)) (combine w c)))
  | _ => Raise ValueError
  end.

(** The fractional-delay interpolant at index [i] of the padded input;
    [None] when [I_ord] is none of 1, 2, 3 and the branch only logs
    ['I_ord must 1, 2, or 3'], leaving the name unbound. *)
Definition NDA_interp (I_ord : Z) (z : list C) (mu : Q) (i : Z) : result (option C) :=
  if (I_ord =? 1)%Z then
    a <- py_index z i ;;
    b <- py_index z (i - 1) ;;
    Ok (Some (Cadd (Cscale mu a) (Cscale (1 - mu) b)))
  else if (I_ord =? 2)%Z then
    let w := py_slice_rev C0 z (i + 2) (i - 1 - 1) in
    s2 <- np_sum_times w [1; -(1); -(1); 1] ;;
    let v2 := Cscale (1 # 2) s2 in
    s1 <- np_sum_times w [-(1); 3; -(1); -(1)] ;;
    let v1 := Cscale (1 # 2) s1 in
    v0 <- py_index z i ;;
    Ok (Some (Cadd (Cscale mu (Cadd (Cscale mu v2) v1)) v0))
  else if (I_ord =? 3)%Z then
    let w := py_slice_rev C0 z (i + 2) (i - 1 - 1) in
    v3 <- np_sum_times w [1 # 6; -(1 # 2); 1 # 2; -(1 # 6)] ;;
    v2 <- np_sum_times w [0; 1 # 2; -(1); 1 # 2] ;;
    v1 <- np_sum_times w [-(1 # 6); 1; -(1 # 2); -(1 # 3)] ;;
    v0 <- py_index z i ;;
    Ok (Some (Cadd (Cscale mu (Cadd (Cscale mu (Cadd (Cscale mu v3) v2)) v1)) v0))
  else Ok None.

(** Reading a local complex name. *)
Definition py_local_C (v : option C) : result C :=
  match v with Some c => Ok c | None => Raise UnboundLocalError end.

(** The [for kk in range(Ns)] loop of the timing error detector, from
    [kk] on for [n] passes. *)
Fixpoint NDA_ted `{NumPy} (Ns I_ord : Z) (z : list C) (mu : Q) (nn : Z)
    (kk : Z) (n : nat) (c1 : C) : result C :=
  match n with
  | O => Ok c1
  | S n' =>
      zi <- NDA_interp I_ord z mu (nn + kk) ;;
      z_TED_interp <- py_local_C zi ;;
      let a := np_abs z_TED_interp in
      let c1' := Cadd c1 (Cscale (a * a)
                   (np_cis (-(2 * np_pi) / inject_Z Ns * inject_Z kk))) in
      NDA_ted Ns I_ord z mu nn (kk + 1) n' c1'
  end.

Record nda_state : Type := mkNDA {
  nda_vi : Q;
  CNT_next : Q;
  mu_next : Q;
  underflow : Z;
  epsilon : Q;
  mm : nat;
  zz : list C;
  e_tau : list Q;
  c1_buff : list C
}.

(** The [if underflow == 1] part of the loop body at index [nn]: the
    interpolant [z_interp] and the smoothed detector output [epsilon] of
    the symbol event, stored at index [mm].  The second component is the
    pair this event produced, [None] when the loop coasts. *)
Definition NDA_symbol `{NumPy} (Ns L I_ord : Z) (z : list C) (st : nda_state) (nn : Z)
    : result (nda_state * option (C * Q)) :=
  if (underflow st =? 1)%Z then
    let mu := mu_next st in
    zi <- NDA_interp I_ord z mu nn ;;
    c1 <- NDA_ted Ns I_ord z mu nn 0 (Z.to_nat Ns) C0 ;;
    let c1 := Cscale (/ inject_Z Ns) c1 in
    let buff := c1 :: removelast (c1_buff st) in
    let eps := -(1) / (2 * np_pi)
               * np_angle (Cscale (/ inject_Z (2 * L + 1)) (Csum buff)) in
    z_interp <- py_local_C zi ;;
    zz1 <- py_store (zz st) (mm st) z_interp ;;
    e_tau1 <- py_store (e_tau st) (mm st) eps ;;
    Ok ({| nda_vi := nda_vi st;
           CNT_next := CNT_next st;
           mu_next := mu_next st;
           underflow := underflow st;
           epsilon := eps;
           mm := S (mm st);
           zz := zz1;
           e_tau := e_tau1;
           c1_buff := buff |}, Some (z_interp, eps))
  else Ok (st, None).

(** The loop filter and the register update that close the loop body. *)
Definition NDA_registers (Ns : Z) (K1 K2 : Q) (st : nda_state) : result nda_state :=
  let CNT := CNT_next st in
  let mu := mu_next st in
  let vp := K1 * epsilon st in
  let vi := nda_vi st + K2 * epsilon st in
  let v := vp + vi in
  let W := 1 / inject_Z Ns + v in
  let CNT_next0 := CNT - W in
  if Qlt_le_dec CNT_next0 0 then
    mu1 <- np_div CNT W ;;
    Ok {| nda_vi := vi;
          CNT_next := 1 + CNT_next0;
          mu_next := mu1;
          underflow := 1;
          epsilon := epsilon st;
          mm := mm st;
          zz := zz st;
          e_tau := e_tau st;
          c1_buff := c1_buff st |}
  else
    Ok {| nda_vi := vi;
          CNT_next := CNT_next0;
          mu_next := mu;
          underflow := 0;
          epsilon := epsilon st;
          mm := mm st;
          zz := zz st;
          e_tau := e_tau st;
          c1_buff := c1_buff st |}.

(** One pass of [for nn in range(1, ...)]. *)
Definition NDA_body `{NumPy} (Ns L : Z) (K1 K2 : Q) (I_ord : Z) (z : list C)
    (st : nda_state) (nn : Z) : result (nda_state * option (C * Q)) :=
  ' (st1, ev) <- NDA_symbol Ns L I_ord z st nn ;;
  st2 <- NDA_registers Ns K1 K2 st1 ;;
  Ok (st2, ev).

(** The loop from index [nn] on for [n] passes: the final state and the
    symbol events in the order they happened. *)
Fixpoint NDA_loop `{NumPy} (Ns L : Z) (K1 K2 : Q) (I_ord : Z) (z : list C)
    (nn : Z) (n : nat) (st : nda_state) : result (nda_state * list (C * Q)) :=
  match n with
  | O => Ok (st, [])
  | S n' =>
      ' (st1, ev) <- NDA_body Ns L K1 K2 I_ord z st nn ;;
      ' (st2, evs) <- NDA_loop Ns L K1 K2 I_ord z (nn + 1) n' st1 ;;
      Ok (st2, match ev with Some e => e :: evs | None => evs end)
  end.

(** What the locals hold when the loop of [NDA_symb_sync] is done. *)
Definition NDA_symb_sync_loop `{NumPy} (z : list C) (Ns L : Z) (BnTs zeta : Q)
    (I_ord : Z) : result (nda_state * list (C * Q)) :=
  ' (K1, K2) <- loop_gains zeta BnTs Ns 1 (-(1)) ;;
  let N := length z in
  if (2 * L + 1 <? 0)%Z then Raise ValueError else
  let st0 := {| nda_vi := 0; CNT_next := 0; mu_next := 0; underflow := 0;
                epsilon := 0; mm := 1;
                zz := repeat C0 N; e_tau := repeat 0 N;
                c1_buff := repeat C0 (Z.to_nat (2 * L + 1)) |} in
  let z1 := C0 :: z in
  let stop := (Ns * Qfloor (inject_Z (Z.of_nat (length z1)) / inject_Z Ns
                            - inject_Z (Ns - 1)))%Z in
  NDA_loop Ns L K1 K2 I_ord z1 1 (Z.to_nat (stop - 1)) st0.

(** [zz = zz[:-(len(zz)-mm+1)]] and the same for [e_tau]. *)
Definition NDA_trim {A : Type} (mm0 : nat) (l : list A) : list A :=
  py_prefix l (- (Z.of_nat (length l) - Z.of_nat mm0 + 1)).

(** [zz /= np.std(zz)]; on an empty array there is nothing to divide. *)
Definition NDA_normalize `{NumPy} (l : list C) : result (list C) :=
  match l with
  | [] => Ok []
  | _ :: _ =>
      s <- np_std l ;;
      if Qeq_bool s 0 then NonFinite else Ok (map (Cscale (/ s)) l)
  end.

(** [NDA_symb_sync(z, Ns, L, BnTs, zeta, I_ord)] returns [(zz, e_tau)]. *)
Definition NDA_symb_sync `{NumPy} (z : list C) (Ns L : Z) (BnTs zeta : Q)
    (I_ord : Z) : result (list C * list Q) :=
  ' (st, _) <- NDA_symb_sync_loop z Ns L BnTs zeta I_ord ;;
  zz1 <- NDA_normalize (NDA_trim (mm st) (zz st)) ;;
  Ok (zz1, NDA_trim (mm st) (e_tau st)).

(** ** A small executable instance of the kernels

    Low-order stand-ins, exact at the origin ([exp(0) = 1], [sqrt] exact on
    squares of integers, [angle] zero on the positive real axis).  They
    serve to run the model on concrete inputs; every theorem below holds
    for any instance. *)

Definition small_sqrt (q : Q) : Q := Z.sqrt (Qnum q * Zpos (Qden q)) # Qden q.

Definition small_cis (t : Q) : C :=
  if Qeq_bool t 0 then mkC 1 0
  else mkC (1 - t * t / 2) (t - t * t * t / 6).

Definition small_angle (a : C) : Q :=
  if Qeq_bool (im a) 0 then (if Qle_bool 0 (re a) then 0 else np_pi)
  else let q := np_pi / 2 * (im a / (Qabs (re a) + Qabs (im a))) in
       if Qle_bool 0 (re a) then q else np_sign (im a) * np_pi - q.

#[export] Instance np_small : NumPy := {|
  np_exp := fun t => 1 + t + t * t / 2;
  np_cis := small_cis;
  np_angle := small_angle;
  np_sqrt := small_sqrt;
  np_sin := fun t => t - t * t * t / 6
|}.

(** The order-2 filter as the specification words it: [alpha1] times the
    current input plus [alpha2] times the sum of the initial state and of
    all inputs so far, for the call of index [n] on the inputs [xs]. *)
Definition LoopFilter2_spec (f : LoopFilter2) (xs : list Q) (n : nat) : Q :=
  alpha1 f * nth n xs 0
  + alpha2 f * fold_left Qplus (firstn (S n) xs) (m_state (accum f)).



Definition result_map {A B : Type} (f : A -> B) (m : result A) : result B :=
  match m with
  | Ok a => Ok (f a)
  | Raise e => Raise e
  | NonFinite => NonFinite
  end.

(** The output buffers of [NDA_symb_sync] after the symbol events [done]
    (oldest first), for an input of [N] samples: slot 0 is the zero it was
    created with, the events follow from slot 1 on, the rest is still zero,
    and [mm] is the next free slot. *)
Definition NDA_buffers (N : nat) (st : nda_state) (done : list (C * Q)) : Prop :=
  mm st = S (length done) /\
  zz st = firstn N (C0 :: map fst done) ++ repeat C0 (N - S (length done)) /\
  e_tau st = firstn N (0 :: map snd done) ++ repeat 0 (N - S (length done)) /\
  (done = [] \/ (length done < N)%nat).

(** [n] calls of [update(0.0)] in a row on one oscillator. *)
Fixpoint NCO_idle (n : nat) (o : NCO) : NCO :=
  match n with
  | O => o
  | S n' => NCO_idle n' (NCO_update o 0)
  end.

(** * Properties *)

(** ** Outcomes and numbers *)

Lemma bind_Ok_inv {A B : Type} (m : result A) (k : A -> result B) (b : B) :
  bind m k = Ok b -> exists a, m = Ok a /\ k a = Ok b.
Proof.
  destruct m as [a| |]; simpl; intros Hb; try discriminate.
  exists a; split; [reflexivity | exact Hb].
Qed.

Ltac inv_bind H :=
  let a := fresh "a" in
  let Ha := fresh "Ha" in
  apply bind_Ok_inv in H; destruct H as (a & Ha & H).




(** ** NCO *)






(** C3.  The constructor and [set_fcenter] do not derive the same frequency
    word: for [fcenter = 2], [fs = 3] and 8 bits the constructor divides
    the rounded product and drops the fraction of 170.67, giving 170,
    where [set_fcenter(2)] rounds the quotient to 171. *)
Theorem NCO_init_set_fcenter_differ :
  exists o o',
    NCO_init 2 3 1 0 8 = Ok o /\
    NCO_set_fcenter o 2 = Ok o' /\
    delta_k o = 170%Z /\
    delta_k o' = rint (2 * inject_Z (2 ^ 8) / 3) /\
    delta_k o' = 171%Z.
Proof.
  eexists. eexists.
  split; [reflexivity |].
  split; [reflexivity |].
  repeat split.
Qed.


Lemma NCO_init_word (fcenter fs0 kc0 : Q) (k0 nbits : Z) (o : NCO) :
  NCO_init fcenter fs0 kc0 k0 nbits = Ok o ->
  delta_k o = (Qtrunc (inject_Z (rint (fcenter * to_float (py_pow2 nbits))) / fs0)
               mod 2 ^ dtype_bits (dtype o))%Z.
Proof.
  unfold NCO_init, np_div. intros Hinit.
  inv_bind Hinit.
  destruct (Qeq_bool fs0 0); simpl in Hinit; [discriminate |].
  injection Hinit as <-. reflexivity.
Qed.

(** C8.  A threshold of zero is taken for an omitted one: with
    [k_old = 5] and [k_hat = 3] the difference 2 exceeds 0, yet
    [pos_edge(0)] compares with half scale and answers [False]. *)
Theorem NCO_pos_edge_zero_threshold :
  exists o0 o,
    NCO_init 254 256 1 5 8 = Ok o0 /\
    o = NCO_update o0 0 /\
    k_old o = 5%Z /\ k_hat o = 3%Z /\
    0 < inject_Z (k_old o) - inject_Z (k_hat o) /\
    NCO_pos_edge o (Some 0) = Ok false /\
    NCO_pos_edge o (Some 0) = NCO_pos_edge o None.
Proof.
  eexists. eexists.
  split; [reflexivity |].
  split; [reflexivity |].
  repeat split.
Qed.

(** A threshold other than zero is compared as given. *)
Lemma NCO_pos_edge_nonzero (o : NCO) (t : Q) :
  ~ t == 0 ->
  NCO_pos_edge o (Some t)
  = Ok (if Qlt_le_dec t (inject_Z (k_old o) - inject_Z (k_hat o)) then true else false).
Proof.
  intros Ht. unfold NCO_pos_edge, py_truthy.
  destruct (Qeq_bool t 0) eqn:E.
  - apply Qeq_bool_iff in E. contradiction.
  - simpl. destruct (Qlt_le_dec _ _); reflexivity.
Qed.


(** ** Loop filters *)

Lemma LoopFilter2_run_gains (xs : list Q) (f : LoopFilter2) :
  alpha1 (fst (LoopFilter2_run f xs)) = alpha1 f /\
  alpha2 (fst (LoopFilter2_run f xs)) = alpha2 f.
Proof.
  revert f. induction xs as [| x xs IH]; intros f; simpl; [auto |].
  destruct (LoopFilter2_run _ xs) as [f2 ys] eqn:E.
  simpl. specialize (IH {| accum := Accumulator_update (accum f) x;
                           alpha1 := alpha1 f; alpha2 := alpha2 f |}).
  rewrite E in IH. exact IH.
Qed.

Lemma LoopFilter2_run_outputs (xs : list Q) (f : LoopFilter2) :
  snd (LoopFilter2_run f xs) = map (LoopFilter2_spec f xs) (seq 0 (length xs)).
Proof.
  revert f. induction xs as [| x xs IH]; intros f; [reflexivity |].
  simpl.
  set (f1 := {| accum := Accumulator_update (accum f) x;
                alpha1 := alpha1 f; alpha2 := alpha2 f |}).
  specialize (IH f1).
  destruct (LoopFilter2_run f1 xs) as [f2 ys].
  simpl in *. f_equal.
  rewrite IH, <- seq_shift, map_map.
  apply map_ext. intros n. reflexivity.
Qed.

(** C6.  A fresh order-2 filter (accumulator at 0) fed [x1] then [x2]
    answers the second call with [alpha1*x2 + alpha2*(x1+x2)]; and any
    filter answers call [n] with [alpha1] times that input plus [alpha2]
    times the initial state plus all inputs up to it. *)
Theorem LoopFilter2_linear (a1 a2 x1 x2 : Q) (f : LoopFilter2) (xs : list Q) :
  (let f0 := LoopFilter2_init a1 a2 0 in
   let (f1, y1) := LoopFilter2_filter f0 x1 in
   let (f2, y2) := LoopFilter2_filter f1 x2 in
   y2 == a1 * x2 + a2 * (x1 + x2)) /\
  snd (LoopFilter2_run f xs) = map (LoopFilter2_spec f xs) (seq 0 (length xs)).
Proof.
  split.
  - simpl. ring.
  - apply LoopFilter2_run_outputs.
Qed.

(** ** Open-loop composites *)

Lemma cbb_pll_loop_open `{NumPy} (k_d : Q) (xs : list C) :
  forall (o : NCO) (lf : LoopFilter2) (y_old : Q),
    snd (cbb_pll_loop k_d true xs o lf y_old) = NCO_free_run (length xs) o.
Proof.
  induction xs as [| x xs IH]; intros o lf y_old; [reflexivity |].
  cbn [cbb_pll_loop length NCO_free_run].
  destruct (LoopFilter2_filter lf _) as [lf1 y_lf].
  specialize (IH (NCO_update o 0) lf1 y_lf).
  destruct (cbb_pll_loop k_d true xs (NCO_update o 0) lf1 y_lf) as [[yd ylf] xn].
  cbn [snd] in *. now rewrite IH.
Qed.

Lemma cbb_afc_loop_open `{NumPy} (fclk : Q) (xs : list C) :
  forall (o : NCO) (d : Discriminator) (lf : LoopFilter1) (y_old : Q) (r : afc_arrays),
    cbb_afc_loop fclk true xs o d lf y_old = Ok r ->
    x_NCO_afc r = NCO_free_run (length xs) o.
Proof.
  induction xs as [| x xs IH]; intros o d lf y_old r Hr; simpl in Hr.
  - injection Hr as <-. reflexivity.
  - inv_bind Hr. destruct a as [d1 y_d].
    inv_bind Hr. injection Hr as <-.
    simpl. f_equal. eapply IH. exact Ha0.
Qed.

(** C10.  With the open-loop flag set the oscillator output does not
    depend on the input samples: on two inputs of one length and the same
    settings [cbb_pll] ends alike and returns the same [x_NCO_pll], and
    [cbb_afc] builds the same [x_NCO_afc]. *)
Theorem open_loop_NCO_ignores_input `{NumPy} (x1 x2 : list C) (bn k_d fc fclk : Q) :
  length x1 = length x2 ->
  result_map snd (cbb_pll x1 bn k_d fc fclk true)
  = result_map snd (cbb_pll x2 bn k_d fc fclk true) /\
  (forall r1 r2,
      cbb_afc_run x1 bn k_d fc fclk true = Ok r1 ->
      cbb_afc_run x2 bn k_d fc fclk true = Ok r2 ->
      x_NCO_afc r1 = x_NCO_afc r2).
Proof.
  intros Hlen. split.
  - unfold cbb_pll.
    destruct (NCO_init fc fclk 1 0 32) as [o | e |]; simpl; try reflexivity.
    destruct (loop_parms2 bn (707 # 1000) (2 * np_pi) fclk) as [[a1 a2] | e |];
      simpl; try reflexivity.
    now rewrite !cbb_pll_loop_open, Hlen.
  - intros r1 r2 H1 H2.
    unfold cbb_afc_run in H1, H2.
    inv_bind H1. inv_bind H1. inv_bind H2. inv_bind H2.
    rewrite Ha in Ha1. injection Ha1 as <-.
    rewrite (cbb_afc_loop_open _ _ _ _ _ _ H1), (cbb_afc_loop_open _ _ _ _ _ _ H2).
    now rewrite Hlen.
Qed.

Lemma open_loop_NCO_ignores_input_witness :
  let x1 := [mkC 1 0; mkC 0 1] in
  let x2 := [mkC 0 (-(1)); mkC 2 1] in
  exists xn r1 r2,
    cbb_pll x1 100 1 1000 100000 true = Ok xn /\
    snd xn <> [] /\
    result_map snd (cbb_pll x2 100 1 1000 100000 true) = Ok (snd xn) /\
    cbb_afc_run x1 100 1 1000 100000 true = Ok r1 /\
    cbb_afc_run x2 100 1 1000 100000 true = Ok r2 /\
    x_NCO_afc r1 = x_NCO_afc r2.
Proof.
  intros x1 x2.
  destruct (@open_loop_NCO_ignores_input np_small x1 x2 100 1 1000 100000 eq_refl)
    as [Hpll Hafc].
  destruct (cbb_pll x1 100 1 1000 100000 true) as [xn | |] eqn:E1;
    [| vm_compute in E1; discriminate E1 | vm_compute in E1; discriminate E1].
  destruct (cbb_afc_run x1 100 1 1000 100000 true) as [r1 | |] eqn:E2;
    [| vm_compute in E2; discriminate E2 | vm_compute in E2; discriminate E2].
  destruct (cbb_afc_run x2 100 1 1000 100000 true) as [r2 | |] eqn:E3;
    [| vm_compute in E3; discriminate E3 | vm_compute in E3; discriminate E3].
  exists xn, r1, r2.
  split; [reflexivity |].
  split.
  { intros Hnil. vm_compute in E1. injection E1 as <-. discriminate Hnil. }
  split; [symmetry; exact Hpll |].
  split; [reflexivity |].
  split; [reflexivity |].
  exact (Hafc r1 r2 eq_refl eq_refl).
Defined.

(** ** Analog-equivalent simulators *)

(** [2*np.pi*fn] is a float whatever the Python type of [fn]. *)
Lemma two_pi_fn_is_float (fn : pynum) :
  exists q, py_mul (py_mul (PInt 2) (PFloat np_pi)) fn = PFloat q.
Proof.
  destruct fn as [z | q]; simpl; eexists; reflexivity.
Qed.

(** With loop topology 3 the parameter chain of [PLL_cbb] never gets past
    [tau1]: the exclusive or of a float raises. *)
Lemma PLL_cbb_consts_lowpass (Kv : Q) (fn : pynum) (zeta : Q) :
  PLL_cbb_consts 3 Kv fn zeta = Raise TypeError.
Proof.
  unfold PLL_cbb_consts.
  change (3 =? 1)%Z with false. change (3 =? 2)%Z with false.
  change (3 =? 3)%Z with true. cbv iota.
  destruct (two_pi_fn_is_float fn) as [q Hq].
  rewrite Hq. reflexivity.
Qed.

Lemma PLL_cbb_lowpass_raises `{NumPy} (x : list C) (fs0 Kv : Q) (fn : pynum) (zeta : Q) :
  ~ fs0 == 0 -> PLL_cbb x fs0 3 Kv fn zeta = Raise TypeError.
Proof.
  intros Hfs. unfold PLL_cbb, py_div.
  destruct (Qeq_bool fs0 0) eqn:E.
  - apply Qeq_bool_iff in E. contradiction.
  - cbn [bind]. now rewrite PLL_cbb_consts_lowpass.
Qed.

(** C7.  [PLL_cbb] with loop topology 3 on the one-sample input [1+0j],
    [fs = 1], [Kv = 1], [fn = 1.0], [zeta = 1] raises [TypeError] where it
    computes [tau1], and so returns no sequence; [PLL1], which squares with
    [**], runs through on the same settings and returns three sequences of
    the input length. *)
Theorem PLL_cbb_lowpass_type_error `{NumPy} :
  PLL_cbb [mkC 1 0] 1 3 1 (PFloat 1) 1 = Raise TypeError /\
  exists theta_hat ev phi,
    PLL1 [1] 1 3 1 1 1 0 = Ok (theta_hat, ev, phi) /\
    length theta_hat = 1%nat /\ length ev = 1%nat /\ length phi = 1%nat.
Proof.
  split.
  - apply PLL_cbb_lowpass_raises. discriminate.
  - do 3 eexists. split; [vm_compute; reflexivity |]. repeat split.
Qed.

(** ** Symbol timing recovery *)

(** What a pass does before the loop filter: nothing when the loop coasts;
    on a symbol event it stores the interpolant and the detector output at
    index [mm] and moves [mm] on, leaving the counter registers alone. *)
Lemma NDA_symbol_inv `{NumPy} (Ns L I_ord : Z) (z : list C) (st st1 : nda_state)
    (nn : Z) (ev : option (C * Q)) :
  NDA_symbol Ns L I_ord z st nn = Ok (st1, ev) ->
  nda_vi st1 = nda_vi st /\ CNT_next st1 = CNT_next st /\
  mu_next st1 = mu_next st /\ underflow st1 = underflow st /\
  ((underflow st <> 1%Z /\ st1 = st /\ ev = None) \/
   (underflow st = 1%Z /\
    exists zi eps,
      ev = Some (zi, eps) /\
      (mm st < length (zz st))%nat /\ (mm st < length (e_tau st))%nat /\
      zz st1 = list_set (zz st) (mm st) zi /\
      e_tau st1 = list_set (e_tau st) (mm st) eps /\
      mm st1 = S (mm st) /\ epsilon st1 = eps)).
Proof.
  unfold NDA_symbol. intros Hs.
  destruct (underflow st =? 1)%Z eqn:Eu.
  - apply Z.eqb_eq in Eu.
    inv_bind Hs. inv_bind Hs. inv_bind Hs. inv_bind Hs. inv_bind Hs.
    unfold py_store in Ha2, Ha3.
    destruct (mm st <? length (zz st))%nat eqn:E1; [| discriminate].
    destruct (mm st <? length (e_tau st))%nat eqn:E2; [| discriminate].
    apply Nat.ltb_lt in E1. apply Nat.ltb_lt in E2.
    injection Ha2 as <-. injection Ha3 as <-.
    injection Hs as <- <-. simpl.
    repeat split; try reflexivity.
    right. split; [exact Eu |].
    eexists. eexists. repeat split; assumption.
  - apply Z.eqb_neq in Eu.
    injection Hs as <- <-.
    repeat split; try reflexivity.
    left. auto.
Qed.

(** The register update, read off the code. *)
Lemma NDA_registers_inv (Ns : Z) (K1 K2 : Q) (st st2 : nda_state) :
  NDA_registers Ns K1 K2 st = Ok st2 ->
  let W := 1 / inject_Z Ns + (K1 * epsilon st + (nda_vi st + K2 * epsilon st)) in
  nda_vi st2 = nda_vi st + K2 * epsilon st /\
  epsilon st2 = epsilon st /\ mm st2 = mm st /\
  zz st2 = zz st /\ e_tau st2 = e_tau st /\
  ((CNT_next st - W < 0 /\ underflow st2 = 1%Z /\
    CNT_next st2 = 1 + (CNT_next st - W) /\ mu_next st2 = CNT_next st / W) \/
   (~ CNT_next st - W < 0 /\ underflow st2 = 0%Z /\
    CNT_next st2 = CNT_next st - W /\ mu_next st2 = mu_next st)).
Proof.
  intros Hr W. unfold NDA_registers in Hr.
  fold W in Hr.
  destruct (Qlt_le_dec (CNT_next st - W) 0) as [Hlt | Hge].
  - unfold np_div in Hr.
    destruct (Qeq_bool W 0); simpl in Hr; [discriminate |].
    injection Hr as <-. simpl.
    repeat split; try reflexivity. left. repeat split; try reflexivity. exact Hlt.
  - injection Hr as <-. simpl.
    repeat split; try reflexivity. right.
    repeat split; try reflexivity. now apply Qle_not_lt.
Qed.

(** C4.  In every pass of the timing loop the counter goes down by the
    control word [W = 1/Ns + v], [v] the loop-filter output of this pass.
    A symbol boundary is flagged for the next pass exactly when
    [CNT - W < 0]; the counter is then taken modulo 1, [CNT - W + 1], and
    the fractional phase becomes [CNT/W]; otherwise the counter is
    [CNT - W] and [mu] is held.  The flagged pass is the one that handles
    a symbol event. *)
Theorem NDA_counter_update `{NumPy} (Ns L : Z) (K1 K2 : Q) (I_ord : Z) (z : list C)
    (st st' : nda_state) (nn : Z) (ev : option (C * Q)) :
  NDA_body Ns L K1 K2 I_ord z st nn = Ok (st', ev) ->
  let CNT := CNT_next st in
  let v := K1 * epsilon st' + nda_vi st' in
  let W := 1 / inject_Z Ns + v in
  nda_vi st' = nda_vi st + K2 * epsilon st' /\
  (underflow st' = 1%Z <-> CNT - W < 0) /\
  (CNT - W < 0 -> CNT_next st' == CNT - W + 1 /\ mu_next st' = CNT / W) /\
  (~ CNT - W < 0 ->
   CNT_next st' = CNT - W /\ underflow st' = 0%Z /\ mu_next st' = mu_next st) /\
  (forall nn' st'' ev',
      NDA_body Ns L K1 K2 I_ord z st' nn' = Ok (st'', ev') ->
      (ev' <> None <-> CNT - W < 0)).
Proof.
  intros Hb CNT v W.
  unfold NDA_body in Hb.
  inv_bind Hb. destruct a as [st1 ev1].
  inv_bind Hb. injection Hb as -> ->.
  destruct (NDA_symbol_inv _ _ _ _ _ _ Ha) as (Hvi & Hc & Hmu & _ & _).
  destruct (NDA_registers_inv _ _ _ _ Ha0) as (Hvi2 & He2 & _ & _ & _ & Hcase).
  assert (HW : W = 1 / inject_Z Ns
                   + (K1 * epsilon st1 + (nda_vi st1 + K2 * epsilon st1))).
  { unfold W, v. now rewrite Hvi2, He2. }
  rewrite <- HW, Hc in Hcase. fold CNT in Hcase.
  assert (Hflag : underflow st' = 1%Z <-> CNT - W < 0).
  { destruct Hcase as [(Hlt & Hu & _) | (Hge & Hu & _)]; rewrite Hu; split;
      intros Hx; try reflexivity; try assumption; try discriminate; contradiction. }
  split; [rewrite Hvi2, He2, Hvi; reflexivity |].
  split; [exact Hflag |].
  split; [| split].
  - intros Hlt.
    destruct Hcase as [(_ & _ & Hcn & Hm) | (Hge & _)]; [| contradiction].
    split; [rewrite Hcn; ring | exact Hm].
  - intros Hge.
    destruct Hcase as [(Hlt & _) | (_ & Hu & Hcn & Hm)]; [contradiction |].
    rewrite Hmu in Hm. auto.
  - intros nn' st'' ev' Hb'.
    unfold NDA_body in Hb'.
    inv_bind Hb'. destruct a as [st3 ev3].
    inv_bind Hb'. injection Hb' as _ ->.
    destruct (NDA_symbol_inv _ _ _ _ _ _ Ha1)
      as (_ & _ & _ & _ & [(Hn & _ & ->) | (Hy & zi & eps & -> & _)]).
    + split; [intros Hx; now elim Hx | intros Hx; apply Hflag in Hx; contradiction].
    + split; [intros _; now apply Hflag | intros _; discriminate].
Qed.

Lemma NDA_counter_update_witness :
  let st := {| nda_vi := 0; CNT_next := 1 # 10; mu_next := 0; underflow := 0;
               epsilon := 0; mm := 1; zz := [C0; C0; C0]; e_tau := [0; 0; 0];
               c1_buff := [C0] |} in
  exists st' ev,
    NDA_body 4 0 (-(1 # 10)) (-(1 # 100)) 1 [C0; mkC 1 0; mkC 0 1; mkC 1 1] st 2
    = Ok (st', ev) /\
    underflow st' = 1%Z /\
    CNT_next st' == 17 # 20 /\
    mu_next st' == 2 # 5.
Proof.
  intros st.
  assert (E : {p | NDA_body 4 0 (-(1 # 10)) (-(1 # 100)) 1
                     [C0; mkC 1 0; mkC 0 1; mkC 1 1] st 2 = Ok p})
    by (eexists; vm_compute; reflexivity).
  destruct E as [[st' ev] E].
  destruct (@NDA_counter_update np_small _ _ _ _ _ _ _ _ _ _ E)
    as (Hvi & Hflag & Hunder & _ & _).
  exists st', ev.
  split; [exact E |].
  vm_compute in E. injection E as <- <-.
  split; [reflexivity |].
  split; reflexivity.
Defined.

Lemma list_set_length {A : Type} (l : list A) (i : nat) (v : A) :
  length (list_set l i v) = length l.
Proof.
  revert i. induction l as [| h t IH]; intros [| i]; simpl; auto.
Qed.

Lemma list_set_middle {A : Type} (p r : list A) (d v : A) :
  list_set (p ++ d :: r) (length p) v = p ++ v :: r.
Proof.
  induction p as [| h t IH]; simpl; [reflexivity | now rewrite IH].
Qed.

Lemma NDA_buffers_length (N : nat) (st : nda_state) (done : list (C * Q)) :
  NDA_buffers N st done -> length (zz st) = N /\ length (e_tau st) = N.
Proof.
  intros (_ & Hz & He & _).
  rewrite Hz, He, !length_app, !length_firstn, !repeat_length.
  simpl. rewrite !length_map. lia.
Qed.

(** Storing one more event keeps the layout of the buffers. *)
Lemma NDA_buffers_store (N : nat) (st st1 : nda_state) (done : list (C * Q))
    (zi : C) (eps : Q) :
  NDA_buffers N st done ->
  (mm st < length (zz st))%nat ->
  zz st1 = list_set (zz st) (mm st) zi ->
  e_tau st1 = list_set (e_tau st) (mm st) eps ->
  mm st1 = S (mm st) ->
  NDA_buffers N st1 (done ++ [(zi, eps)]).
Proof.
  intros Hinv Hlt Hz1 He1 Hm1.
  destruct (NDA_buffers_length Hinv) as [Hlz _].
  destruct Hinv as (Hm & Hz & He & _).
  rewrite Hlz, Hm in Hlt.
  assert (Hrep : forall (B : Type) (b : B),
             repeat b (N - S (length done))
             = b :: repeat b (N - S (S (length done)))).
  { intros B b. replace (N - S (length done))%nat
      with (S (N - S (S (length done)))) by lia. reflexivity. }
  assert (Hfull : forall (B : Type) (b : B) (l : list B),
             length l = length done -> firstn N (b :: l) = b :: l).
  { intros B b l Hl. apply firstn_all2. simpl. lia. }
  assert (Hfull' : forall (B : Type) (b : B) (l : list B),
             length l = S (length done) -> firstn N (b :: l) = b :: l).
  { intros B b l Hl. apply firstn_all2. simpl. lia. }
  unfold NDA_buffers.
  rewrite length_app, Nat.add_1_r. simpl length.
  split; [lia |].
  split; [| split; [| right; lia]].
  - rewrite Hz1, Hz, Hm, Hrep.
    rewrite (Hfull _ C0 (map fst done)) by apply length_map.
    rewrite (Hfull' _ C0 (map fst (done ++ [(zi, eps)])))
      by (rewrite length_map, length_app; simpl; lia).
    replace (S (length done)) with (length (C0 :: map fst done))
      by (simpl; now rewrite length_map).
    rewrite list_set_middle, map_app. simpl.
    now rewrite <- app_assoc.
  - rewrite He1, He, Hm, Hrep.
    rewrite (Hfull _ 0 (map snd done)) by apply length_map.
    rewrite (Hfull' _ 0 (map snd (done ++ [(zi, eps)])))
      by (rewrite length_map, length_app; simpl; lia).
    replace (S (length done)) with (length (0 :: map snd done))
      by (simpl; now rewrite length_map).
    rewrite list_set_middle, map_app. simpl.
    now rewrite <- app_assoc.
Qed.

Lemma NDA_body_buffers `{NumPy} (Ns L : Z) (K1 K2 : Q) (I_ord : Z) (z : list C)
    (N : nat) (st st' : nda_state) (nn : Z) (ev : option (C * Q))
    (done : list (C * Q)) :
  NDA_buffers N st done ->
  NDA_body Ns L K1 K2 I_ord z st nn = Ok (st', ev) ->
  NDA_buffers N st' (done ++ match ev with Some e => [e] | None => [] end).
Proof.
  intros Hinv Hb.
  unfold NDA_body in Hb.
  inv_bind Hb. destruct a as [st1 ev1].
  inv_bind Hb. injection Hb as -> ->.
  destruct (NDA_registers_inv _ _ _ _ Ha0) as (_ & _ & Hm & Hz & He & _).
  assert (Hst1 : NDA_buffers N st1
                   (done ++ match ev with Some e => [e] | None => [] end)).
  { destruct (NDA_symbol_inv _ _ _ _ _ _ Ha)
      as (_ & _ & _ & _ & [(_ & -> & ->) | (_ & zi & eps & -> & Hlt & _ & Hz1 & He1 & Hm1 & _)]).
    - now rewrite app_nil_r.
    - eapply NDA_buffers_store; eassumption. }
  unfold NDA_buffers in *. now rewrite Hm, Hz, He.
Qed.

Lemma NDA_loop_buffers `{NumPy} (Ns L : Z) (K1 K2 : Q) (I_ord : Z) (z : list C)
    (N : nat) (n : nat) :
  forall (nn : Z) (st st' : nda_state) (done evs : list (C * Q)),
    NDA_buffers N st done ->
    NDA_loop Ns L K1 K2 I_ord z nn n st = Ok (st', evs) ->
    NDA_buffers N st' (done ++ evs).
Proof.
  induction n as [| n IH]; intros nn st st' done evs Hinv Hl; simpl in Hl.
  - injection Hl as <- <-. now rewrite app_nil_r.
  - inv_bind Hl. destruct a as [st1 ev].
    inv_bind Hl. destruct a as [st2 evs'].
    injection Hl as <- <-.
    pose proof (NDA_body_buffers _ _ _ _ _ _ _ Hinv Ha) as H1.
    pose proof (IH _ _ _ _ _ H1 Ha0) as H2.
    destruct ev as [e |]; [now rewrite <- app_assoc in H2 | now rewrite app_nil_r in H2].
Qed.

Lemma NDA_buffers_init (N : nat) (vi0 cnt0 mu0 : Q) (u0 : Z) (eps0 : Q)
    (buff : list C) :
  NDA_buffers N {| nda_vi := vi0; CNT_next := cnt0; mu_next := mu0;
                   underflow := u0; epsilon := eps0; mm := 1;
                   zz := repeat C0 N; e_tau := repeat 0 N;
                   c1_buff := buff |} [].
Proof.
  unfold NDA_buffers. simpl.
  split; [reflexivity |].
  destruct N as [| n]; simpl; [auto |].
  rewrite !firstn_nil, Nat.sub_0_r. simpl. auto.
Qed.

(** The closing slice on buffers that hold [u >= 1] events. *)
Lemma NDA_trim_filled {A : Type} (N : nat) (b d : A) (l : list A) :
  (1 <= length l)%nat -> (length l < N)%nat ->
  NDA_trim (S (length l)) ((b :: l) ++ repeat d (N - S (length l)))
  = b :: removelast l.
Proof.
  intros H1 H2.
  unfold NDA_trim, py_prefix.
  assert (Hlen : length ((b :: l) ++ repeat d (N - S (length l))) = N).
  { rewrite length_app, repeat_length. simpl. lia. }
  rewrite Hlen.
  destruct (Z.ltb_spec (- (Z.of_nat N - Z.of_nat (S (length l)) + 1)) 0) as [_ | Hge];
    [| lia].
  replace (Z.to_nat (Z.max 0 (- (Z.of_nat N - Z.of_nat (S (length l)) + 1)
                              + Z.of_nat N)))
    with (length l) by lia.
  rewrite firstn_app.
  replace (length l - length (b :: l))%nat with 0%nat by (simpl; lia).
  rewrite firstn_O, app_nil_r.
  destruct l as [| a l']; [simpl in H1; lia |].
  rewrite removelast_firstn_len.
  reflexivity.
Qed.

(** X1.  When the timing loop of [NDA_symb_sync] has handled [u >= 1]
    symbol events, the two arrays it slices for return have exactly [u]
    entries: the zero the buffer was created with at index 0, then the
    interpolants (resp. timing errors) of the first [u-1] events in order.
    What the last event stored is cut off.  The normalisation keeps the
    length of [zz] and does not touch [e_tau]. *)
Theorem NDA_outputs_drop_last_event `{NumPy} (z : list C) (Ns L : Z) (BnTs zeta : Q)
    (I_ord : Z) (st : nda_state) (evs : list (C * Q)) :
  NDA_symb_sync_loop z Ns L BnTs zeta I_ord = Ok (st, evs) ->
  (1 <= length evs)%nat ->
  let zz_raw := NDA_trim (mm st) (zz st) in
  let e_tau_out := NDA_trim (mm st) (e_tau st) in
  zz_raw = C0 :: map fst (removelast evs) /\
  e_tau_out = 0 :: map snd (removelast evs) /\
  length zz_raw = length evs /\
  length e_tau_out = length evs /\
  (forall zz_out e_out,
      NDA_symb_sync z Ns L BnTs zeta I_ord = Ok (zz_out, e_out) ->
      length zz_out = length evs /\ e_out = e_tau_out).
Proof.
  intros Hloop Hu zz_raw e_tau_out.
  assert (Hinv : NDA_buffers (length z) st evs).
  { unfold NDA_symb_sync_loop in Hloop.
    inv_bind Hloop. destruct a as [K1 K2].
    destruct (2 * L + 1 <? 0)%Z; [discriminate |].
    change evs with ([] ++ evs).
    eapply NDA_loop_buffers; [| exact Hloop].
    apply NDA_buffers_init. }
  destruct Hinv as (Hm & Hz & He & [Hnil | Hlt]);
    [rewrite Hnil in Hu; simpl in Hu; lia |].
  assert (Hzz : zz_raw = C0 :: map fst (removelast evs)).
  { unfold zz_raw. rewrite Hm, Hz.
    rewrite firstn_all2 by (simpl; rewrite length_map; lia).
    rewrite <- (length_map fst evs).
    rewrite NDA_trim_filled by (rewrite length_map; lia).
    f_equal. clear. induction evs as [| a [| b t] IH]; simpl; try reflexivity.
    simpl in IH. now rewrite IH. }
  assert (Het : e_tau_out = 0 :: map snd (removelast evs)).
  { unfold e_tau_out. rewrite Hm, He.
    rewrite firstn_all2 by (simpl; rewrite length_map; lia).
    rewrite <- (length_map snd evs).
    rewrite NDA_trim_filled by (rewrite length_map; lia).
    f_equal. clear. induction evs as [| a [| b t] IH]; simpl; try reflexivity.
    simpl in IH. now rewrite IH. }
  assert (Hrl : S (length (removelast evs)) = length evs).
  { rewrite removelast_firstn_len, length_firstn. lia. }
  assert (Hlz : length zz_raw = length evs)
    by (rewrite Hzz; simpl; now rewrite length_map).
  split; [exact Hzz |].
  split; [exact Het |].
  split; [exact Hlz |].
  split; [rewrite Het; simpl; now rewrite length_map |].
  intros zz_out e_out Hs.
  unfold NDA_symb_sync in Hs. rewrite Hloop in Hs. cbn [bind] in Hs.
  inv_bind Hs. injection Hs as <- <-.
  split; [| reflexivity].
  fold zz_raw in Ha.
  unfold NDA_normalize in Ha.
  destruct zz_raw as [| c t] eqn:Ez; [simpl in Hlz; simpl; injection Ha as <-; exact Hlz |].
  inv_bind Ha.
  destruct (Qeq_bool a0 0); [discriminate |].
  injection Ha as <-. simpl in *. rewrite length_map. exact Hlz.
Qed.

Lemma NDA_outputs_drop_last_event_witness :
  exists st evs zz_out e_out,
    NDA_symb_sync_loop [mkC 3 4; mkC 0 1; mkC 1 0] 1 0 (1 # 10) (1 # 2) 1
    = Ok (st, evs) /\
    length evs = 2%nat /\
    NDA_trim (mm st) (zz st) = C0 :: map fst (removelast evs) /\
    NDA_symb_sync [mkC 3 4; mkC 0 1; mkC 1 0] 1 0 (1 # 10) (1 # 2) 1
    = Ok (zz_out, e_out) /\
    length zz_out = 2%nat.
Proof.
  assert (E : {p | NDA_symb_sync_loop [mkC 3 4; mkC 0 1; mkC 1 0] 1 0
                     (1 # 10) (1 # 2) 1 = Ok p})
    by (eexists; vm_compute; reflexivity).
  destruct E as [[st evs] E].
  assert (F : {p | NDA_symb_sync [mkC 3 4; mkC 0 1; mkC 1 0] 1 0
                     (1 # 10) (1 # 2) 1 = Ok p})
    by (eexists; vm_compute; reflexivity).
  destruct F as [[zz_out e_out] F].
  assert (Hu : length evs = 2%nat).
  { pose proof E as E'. vm_compute in E'. injection E' as _ <-. reflexivity. }
  assert (H1 : (1 <= length evs)%nat) by (rewrite Hu; auto).
  destruct (@NDA_outputs_drop_last_event np_small _ _ _ _ _ _ _ _ E H1)
    as (Hzz & _ & _ & _ & Hout).
  destruct (Hout _ _ F) as [Hlen _].
  exists st, evs, zz_out, e_out.
  split; [exact E |].
  split; [exact Hu |].
  split; [exact Hzz |].
  split; [exact F |].
  now rewrite Hlen.
Defined.

(** ** Carrier phase recovery *)









Lemma py_div_ok (a b : Q) : ~ b == 0 -> py_div a b = Ok (a / b).
Proof.
  intros Hb. unfold py_div.
  destruct (Qeq_bool b 0) eqn:E; [| reflexivity].
  apply Qeq_bool_iff in E. contradiction.
Qed.








(** ** More on the oscillator *)





Lemma NCO_idle_layout (n : nat) :
  forall o : NCO,
    n_bits (NCO_idle n o) = n_bits o /\ dtype (NCO_idle n o) = dtype o /\
    max_bits_const (NCO_idle n o) = max_bits_const o /\
    delta_k (NCO_idle n o) = delta_k o.
Proof.
  induction n as [| n IH]; intros o; simpl; [auto |].
  destruct (IH (NCO_update o 0)) as (H1 & H2 & H3 & H4).
  rewrite H1, H2, H3, H4. auto.
Qed.









(** ** Unsupported settings of the timing loop and of the simulators *)

Lemma NDA_interp_unsupported (I_ord : Z) (z : list C) (mu : Q) (i : Z) :
  I_ord <> 1%Z -> I_ord <> 2%Z -> I_ord <> 3%Z ->
  NDA_interp I_ord z mu i = Ok None.
Proof.
  intros H1 H2 H3. unfold NDA_interp.
  destruct (Z.eqb_spec I_ord 1); [contradiction |].
  destruct (Z.eqb_spec I_ord 2); [contradiction |].
  destruct (Z.eqb_spec I_ord 3); [contradiction | reflexivity].
Qed.

Lemma NDA_symbol_unsupported `{NumPy} (Ns L I_ord : Z) (z : list C)
    (st : nda_state) (nn : Z) :
  I_ord <> 1%Z -> I_ord <> 2%Z -> I_ord <> 3%Z ->
  underflow st = 1%Z ->
  NDA_symbol Ns L I_ord z st nn = Raise UnboundLocalError.
Proof.
  intros H1 H2 H3 Hu. unfold NDA_symbol. rewrite Hu.
  change (1 =? 1)%Z with true. cbv iota.
  rewrite (NDA_interp_unsupported z (mu_next st) nn H1 H2 H3). cbn [bind].
  destruct (Z.to_nat Ns) as [| n].
  - reflexivity.
  - cbn [NDA_ted].
    rewrite (NDA_interp_unsupported z (mu_next st) (nn + 0) H1 H2 H3).
    reflexivity.
Qed.

Lemma NDA_loop_unsupported `{NumPy} (Ns L : Z) (K1 K2 : Q) (I_ord : Z) (z : list C)
    (n : nat) :
  I_ord <> 1%Z -> I_ord <> 2%Z -> I_ord <> 3%Z ->
  forall (nn : Z) (st st' : nda_state) (evs : list (C * Q)),
    NDA_loop Ns L K1 K2 I_ord z nn n st = Ok (st', evs) -> evs = [].
Proof.
  intros H1 H2 H3.
  induction n as [| n IH]; intros nn st st' evs Hl; simpl in Hl.
  - now injection Hl as _ <-.
  - apply bind_Ok_inv in Hl. destruct Hl as ([st1 ev] & Hb & Hl).
    apply bind_Ok_inv in Hl. destruct Hl as ([st2 evs'] & Hl' & Hl).
    injection Hl as _ <-.
    rewrite (IH _ _ _ _ Hl').
    unfold NDA_body in Hb.
    apply bind_Ok_inv in Hb. destruct Hb as ([st3 ev3] & Hs & Hb).
    apply bind_Ok_inv in Hb. destruct Hb as (st4 & _ & Hb).
    injection Hb as _ <-.
    destruct (Z.eq_dec (underflow st) 1) as [Hu | Hu].
    + rewrite (NDA_symbol_unsupported Ns L z st nn H1 H2 H3 Hu) in Hs. discriminate.
    + destruct (NDA_symbol_inv _ _ _ _ _ _ Hs)
        as (_ & _ & _ & _ & [(_ & _ & ->) | (Hy & _)]);
        [reflexivity | contradiction].
Qed.

Lemma NDA_trim_nothing {A : Type} (l : list A) : NDA_trim 1 l = [].
Proof.
  unfold NDA_trim, py_prefix.
  destruct (Z.ltb_spec (- (Z.of_nat (length l) - Z.of_nat 1 + 1)) 0).
  - replace (Z.to_nat _) with 0%nat by lia. reflexivity.
  - replace (Z.to_nat _) with 0%nat by lia. reflexivity.
Qed.

(** X9.  An interpolator order other than 1, 2 and 3 is only logged by
    [NDA_symb_sync]: nothing fails until the first symbol event, whose
    pass then raises [UnboundLocalError] on the interpolant that no branch
    assigned.  So the routine can only return when no event took place,
    and then returns two empty arrays. *)
Theorem NDA_unsupported_interpolator `{NumPy} (z : list C) (Ns L : Z) (BnTs zeta : Q)
    (I_ord : Z) :
  I_ord <> 1%Z -> I_ord <> 2%Z -> I_ord <> 3%Z ->
  (forall K1 K2 z1 st nn,
      underflow st = 1%Z ->
      NDA_body Ns L K1 K2 I_ord z1 st nn = Raise UnboundLocalError) /\
  (forall zz_out e_out,
      NDA_symb_sync z Ns L BnTs zeta I_ord = Ok (zz_out, e_out) ->
      zz_out = [] /\ e_out = []).
Proof.
  intros H1 H2 H3. split.
  - intros K1 K2 z1 st nn Hu. unfold NDA_body.
    now rewrite (NDA_symbol_unsupported Ns L z1 st nn H1 H2 H3 Hu).
  - intros zz_out e_out Hs.
    unfold NDA_symb_sync in Hs.
    apply bind_Ok_inv in Hs. destruct Hs as ([st evs] & Hloop & Hs).
    apply bind_Ok_inv in Hs. destruct Hs as (zz1 & Hnorm & Hs).
    injection Hs as <- <-.
    assert (Hinv : NDA_buffers (length z) st evs /\ evs = []).
    { unfold NDA_symb_sync_loop in Hloop.
      apply bind_Ok_inv in Hloop. destruct Hloop as ([K1 K2] & _ & Hloop).
      destruct (2 * L + 1 <? 0)%Z; [discriminate |].
      split.
      - change evs with ([] ++ evs).
        eapply NDA_loop_buffers; [| exact Hloop]. apply NDA_buffers_init.
      - eapply NDA_loop_unsupported; eassumption. }
    destruct Hinv as [(Hm & _) ->]. simpl in Hm.
    rewrite Hm in Hnorm. rewrite Hm.
    rewrite NDA_trim_nothing in Hnorm. rewrite NDA_trim_nothing.
    cbn [NDA_normalize] in Hnorm.
    split; [congruence | reflexivity].
Qed.

Lemma NDA_unsupported_interpolator_witness :
  NDA_symb_sync [mkC 1 0] 2 0 (1 # 10) (1 # 2) 5 = Ok ([], []) /\
  NDA_symb_sync [mkC 3 4; mkC 0 1; mkC 1 0] 1 0 (1 # 10) (1 # 2) 5
  = Raise UnboundLocalError.
Proof.
  split.
  - destruct (NDA_symb_sync [mkC 1 0] 2 0 (1 # 10) (1 # 2) 5)
      as [[a b] | e |] eqn:E.
    + destruct (@NDA_unsupported_interpolator np_small [mkC 1 0] 2 0
                  (1 # 10) (1 # 2) 5) as [_ Hret];
        [discriminate | discriminate | discriminate |].
      destruct (Hret _ _ E) as [-> ->]. reflexivity.
    + vm_compute in E. discriminate E.
    + vm_compute in E. discriminate E.
  - vm_compute. reflexivity.
Defined.

(** X10.  A loop type other than 1, 2 and 3 only draws a warning from the
    two simulators: on an empty input they return three empty arrays, on
    any other input the first pass of the loop raises [UnboundLocalError]
    when it reads the loop gain [K] that no branch assigned. *)
Theorem PLL_unsupported_loop_type `{NumPy} (loop_type : Z) (fs0 Kv fn zeta : Q)
    (non_lin : Z) (fnp : pynum) :
  ~ fs0 == 0 ->
  loop_type <> 1%Z -> loop_type <> 2%Z -> loop_type <> 3%Z ->
  PLL1 [] fs0 loop_type Kv fn zeta non_lin = Ok ([], [], []) /\
  (forall t rest,
      PLL1 (t :: rest) fs0 loop_type Kv fn zeta non_lin = Raise UnboundLocalError) /\
  PLL_cbb [] fs0 loop_type Kv fnp zeta = Ok ([], [], []) /\
  (forall x rest,
      PLL_cbb (x :: rest) fs0 loop_type Kv fnp zeta = Raise UnboundLocalError).
Proof.
  intros Hfs H1 H2 H3.
  assert (Hc1 : forall kv, PLL1_consts loop_type kv fn zeta
                = Ok (mkPllConsts None None None
                        ["Loop type must be 1, 2, or 3"%string])).
  { intros kv. unfold PLL1_consts.
    destruct (Z.eqb_spec loop_type 1); [contradiction |].
    destruct (Z.eqb_spec loop_type 2); [contradiction |].
    destruct (Z.eqb_spec loop_type 3); [contradiction | reflexivity]. }
  assert (Hc2 : forall kv, PLL_cbb_consts loop_type kv fnp zeta
                = Ok (mkPllConsts None None None
                        ["Loop type must be 1, 2, or 3"%string])).
  { intros kv. unfold PLL_cbb_consts.
    destruct (Z.eqb_spec loop_type 1); [contradiction |].
    destruct (Z.eqb_spec loop_type 2); [contradiction |].
    destruct (Z.eqb_spec loop_type 3); [contradiction | reflexivity]. }
  unfold PLL1, PLL_cbb.
  rewrite (py_div_ok 1 Hfs). cbn [bind]. rewrite Hc1, Hc2. cbn [bind].
  repeat split; reflexivity.
Qed.

Lemma PLL_unsupported_loop_type_witness :
  PLL1 [1; 2] 100 4 1 10 (1 # 2) 0 = Raise UnboundLocalError /\
  PLL_cbb [] 100 0 1 (PFloat 10) (1 # 2) = Ok ([], [], []).
Proof.
  destruct (@PLL_unsupported_loop_type np_small 4 100 1 10 (1 # 2) 0 (PFloat 10))
    as (_ & Hraise & _ & _); try discriminate.
  destruct (@PLL_unsupported_loop_type np_small 0 100 1 10 (1 # 2) 0 (PFloat 10))
    as (_ & _ & Hempty & _); try discriminate.
  split; [apply Hraise | exact Hempty].
Defined.

(** ** The digital PLL sample by sample *)

Lemma cbb_pll_loop_lengths `{NumPy} (k_d : Q) (op : bool) (xs : list C) :
  forall (o : NCO) (lf : LoopFilter2) (y_old : Q) (yd ylf : list Q) (xn : list C),
    cbb_pll_loop k_d op xs o lf y_old = (yd, ylf, xn) ->
    length yd = length xs /\ length ylf = length xs /\ length xn = length xs.
Proof.
  induction xs as [| x xs IH]; intros o lf y_old yd ylf xn Hl.
  - injection Hl as <- <- <-. auto.
  - cbn [cbb_pll_loop] in Hl.
    destruct (LoopFilter2_filter lf _) as [lf1 y_lf].
    destruct (cbb_pll_loop k_d op xs _ lf1 y_lf) as [[yd1 ylf1] xn1] eqn:E.
    injection Hl as <- <- <-.
    destruct (IH _ _ _ _ _ _ E) as (L1 & L2 & L3).
    simpl. auto.
Qed.

Lemma cbb_pll_loop_prefix `{NumPy} (k_d : Q) (op : bool) (xs ys : list C) :
  forall (o : NCO) (lf : LoopFilter2) (y_old : Q) (yd ylf : list Q) (xn : list C),
    cbb_pll_loop k_d op (xs ++ ys) o lf y_old = (yd, ylf, xn) ->
    cbb_pll_loop k_d op xs o lf y_old
    = (firstn (length xs) yd, firstn (length xs) ylf, firstn (length xs) xn).
Proof.
  induction xs as [| x xs IH]; intros o lf y_old yd ylf xn Hl.
  - reflexivity.
  - cbn [app cbb_pll_loop] in Hl. cbn [cbb_pll_loop].
    destruct (LoopFilter2_filter lf _) as [lf1 y_lf].
    destruct (cbb_pll_loop k_d op (xs ++ ys) _ lf1 y_lf) as [[yd1 ylf1] xn1] eqn:E.
    injection Hl as <- <- <-.
    rewrite (IH _ _ _ _ _ _ E). reflexivity.
Qed.

(** X11.  [cbb_pll] is causal and keeps the length of its input: each of
    the three returned arrays has one entry per input sample, and the
    entries for the first [k] samples are what the routine returns when it
    is given those [k] samples alone. *)
Theorem cbb_pll_causal `{NumPy} (xs ys : list C) (bn k_d fc fclk : Q) (op : bool)
    (yd ylf : list Q) (xn : list C) :
  cbb_pll (xs ++ ys) bn k_d fc fclk op = Ok (yd, ylf, xn) ->
  cbb_pll xs bn k_d fc fclk op
  = Ok (firstn (length xs) yd, firstn (length xs) ylf, firstn (length xs) xn) /\
  length yd = length (xs ++ ys) /\
  length ylf = length (xs ++ ys) /\
  length xn = length (xs ++ ys).
Proof.
  unfold cbb_pll. intros Hp.
  apply bind_Ok_inv in Hp. destruct Hp as (o & Ho & Hp).
  apply bind_Ok_inv in Hp. destruct Hp as ([a1 a2] & Hg & Hp).
  injection Hp as Hp.
  rewrite Ho, Hg. cbn [bind].
  split; [f_equal; eapply cbb_pll_loop_prefix; exact Hp |].
  eapply cbb_pll_loop_lengths; exact Hp.
Qed.

Lemma cbb_pll_causal_witness :
  exists yd ylf xn,
    cbb_pll ([mkC 1 0; mkC 0 1] ++ [mkC 1 1]) 100 1 1000 100000 false
    = Ok (yd, ylf, xn) /\
    cbb_pll [mkC 1 0; mkC 0 1] 100 1 1000 100000 false
    = Ok (firstn 2 yd, firstn 2 ylf, firstn 2 xn) /\
    length yd = 3%nat.
Proof.
  assert (E : {p | cbb_pll ([mkC 1 0; mkC 0 1] ++ [mkC 1 1]) 100 1 1000 100000 false
                   = Ok p})
    by (eexists; vm_compute; reflexivity).
  destruct E as [[[yd ylf] xn] E].
  destruct (@cbb_pll_causal np_small _ _ _ _ _ _ _ _ _ _ E) as (Hpre & Hlen & _).
  exists yd, ylf, xn. auto.
Defined.
